(** * templatr: the template engine, the input session and the static server

    A shallow embedding of [src/bin/index.js].  JavaScript strings are
    sequences of UTF-16 code units; the handful of built-ins the program
    calls ([indexOf], [includes], [trim], [split], [slice], [replace],
    [match] with the program's regular expression, property lookup on an
    object made by [JSON.parse]) are written out in module [JS]; the
    program's own functions follow in module [Templatr] under the names
    they have in the source. *)

From Stdlib Require Import NArith Ascii String.
From stdpp Require Import base option list gmap.

(** ** The JavaScript built-ins used by the program *)

Module JS.

(** A string is a list of UTF-16 code units. *)
Abbreviation jsstring := (list N).

(** ASCII literals, for messages and examples. *)
Definition str (s : string) : jsstring :=
  map N_of_ascii (list_ascii_of_string s).

Definition percent : N := 37.
Definition period : N := 46.
Definition dollar : N := 36.
Definition ampersand : N := 38.
Definition backtick : N := 96.
Definition apostrophe : N := 39.
Definition slash : N := 47.
Definition backslash : N := 92.
Definition newline : N := 10.
Definition quote : N := 34.

(** The code units matched by [\s] (and stripped by [trim]): WhiteSpace and
    LineTerminator of ECMA-262. *)
Definition isWhiteSpace (c : N) : bool :=
  ((9 <=? c) && (c <=? 13) || (c =? 32) || (c =? 160) || (c =? 0x1680)
   || (0x2000 <=? c) && (c <=? 0x200A) || (c =? 0x2028) || (c =? 0x2029)
   || (c =? 0x202F) || (c =? 0x205F) || (c =? 0x3000) || (c =? 0xFEFF))%N.

(** Exceptions, by their [name], and completions.  A failed file system
    call throws an [Error] carrying a system code. *)
Inductive error := TypeError | SyntaxError | SystemError.

Definition error_name (e : error) : jsstring :=
  match e with
  | TypeError => str "TypeError"
  | SyntaxError => str "SyntaxError"
  | SystemError => str "Error"
  end.

Inductive completion (A : Type) :=
| Normal (a : A)
| Throw (e : error).
Arguments Normal {A} a.
Arguments Throw {A} e.

#[global] Instance completion_ret : MRet completion := fun A a => Normal a.
#[global] Instance completion_bind : MBind completion := fun A B f m =>
  match m with
  | Normal a => f a
  | Throw e => Throw e
  end.

(** [s.startsWith(pat)], the test behind [indexOf]. *)
Fixpoint startsWith (s pat : jsstring) {struct pat} : bool :=
  match pat, s with
  | [], _ => true
  | p :: pat', c :: s' => (p =? c)%N && startsWith s' pat'
  | _ :: _, [] => false
  end.

(** [s.indexOf(pat)]: the least index at which [pat] occurs; [None] is -1. *)
Fixpoint indexOf (s pat : jsstring) : option nat :=
  if startsWith s pat then Some 0
  else match s with
       | [] => None
       | _ :: s' => S <$> indexOf s' pat
       end.

(** [s.includes(pat)]. *)
Definition includes (s pat : jsstring) : bool :=
  bool_decide (is_Some (indexOf s pat)).

(** [s.slice(from, to)] for indices within [0 .. s.length]. *)
Definition slice (s : jsstring) (from to : nat) : jsstring :=
  take (to - from) (drop from s).

(** [s.trim()]. *)
Fixpoint trimStart (s : jsstring) : jsstring :=
  match s with
  | c :: s' => if isWhiteSpace c then trimStart s' else s
  | [] => []
  end.

Definition trim (s : jsstring) : jsstring :=
  reverse (trimStart (reverse (trimStart s))).

(** [s.split(sep)] for a separator of one code unit: the pieces between the
    separators, never an empty array. *)
Fixpoint split (s : jsstring) (sep : N) : list jsstring :=
  match s with
  | [] => [[]]
  | c :: s' =>
      if (c =? sep)%N then [] :: split s' sep
      else match split s' sep with
           | piece :: pieces => (c :: piece) :: pieces
           | [] => [[c]]
           end
  end.

(** *** Values

    A data file is a JSON document.  The model covers the documents the
    program is written for: an object whose members are scalars.  A number
    is carried by its canonical decimal form, the string [Number::toString]
    gives it. *)
Inductive json :=
| JNull
| JBool (b : bool)
| JNumber (repr : jsstring)
| JString (s : jsstring).

#[global] Instance json_eq_dec : EqDecision json.
Proof. solve_decision. Defined.

(** The functions an object made by [JSON.parse] inherits from
    [Object.prototype]. *)
Inductive builtin :=
| Object_constructor
| Object_hasOwnProperty
| Object_isPrototypeOf
| Object_propertyIsEnumerable
| Object_toLocaleString
| Object_toString
| Object_valueOf
| Object_defineGetter
| Object_defineSetter
| Object_lookupGetter
| Object_lookupSetter.

(** What [data[key]] can evaluate to. *)
Inductive jsvalue :=
| VUndefined
| VJson (j : json)
| VFunction (f : builtin)
| VObjectPrototype.

#[global] Instance builtin_eq_dec : EqDecision builtin.
Proof. solve_decision. Defined.

#[global] Instance jsvalue_eq_dec : EqDecision jsvalue.
Proof. solve_decision. Defined.

Definition builtin_name (f : builtin) : string :=
  match f with
  | Object_constructor => "Object"
  | Object_hasOwnProperty => "hasOwnProperty"
  | Object_isPrototypeOf => "isPrototypeOf"
  | Object_propertyIsEnumerable => "propertyIsEnumerable"
  | Object_toLocaleString => "toLocaleString"
  | Object_toString => "toString"
  | Object_valueOf => "valueOf"
  | Object_defineGetter => "__defineGetter__"
  | Object_defineSetter => "__defineSetter__"
  | Object_lookupGetter => "__lookupGetter__"
  | Object_lookupSetter => "__lookupSetter__"
  end.

(** The properties of [Object.prototype], by name. *)
Definition ObjectPrototype : list (jsstring * jsvalue) :=
  [ (str "constructor", VFunction Object_constructor);
    (str "hasOwnProperty", VFunction Object_hasOwnProperty);
    (str "isPrototypeOf", VFunction Object_isPrototypeOf);
    (str "propertyIsEnumerable", VFunction Object_propertyIsEnumerable);
    (str "toLocaleString", VFunction Object_toLocaleString);
    (str "toString", VFunction Object_toString);
    (str "valueOf", VFunction Object_valueOf);
    (str "__defineGetter__", VFunction Object_defineGetter);
    (str "__defineSetter__", VFunction Object_defineSetter);
    (str "__lookupGetter__", VFunction Object_lookupGetter);
    (str "__lookupSetter__", VFunction Object_lookupSetter);
    (str "__proto__", VObjectPrototype) ].

Fixpoint assoc (key : jsstring) (props : list (jsstring * jsvalue)) : jsvalue :=
  match props with
  | [] => VUndefined
  | (k, v) :: props' => if decide (k = key) then v else assoc key props'
  end.

(** [data[key]]: the object's own member, else what it inherits. *)
Definition Get (data : gmap jsstring json) (key : jsstring) : jsvalue :=
  match data !! key with
  | Some j => VJson j
  | None => assoc key ObjectPrototype
  end.

(** [ToString]. *)
Definition ToString (v : jsvalue) : jsstring :=
  match v with
  | VUndefined => str "undefined"
  | VJson JNull => str "null"
  | VJson (JBool true) => str "true"
  | VJson (JBool false) => str "false"
  | VJson (JNumber repr) => repr
  | VJson (JString s) => s
  | VFunction f => str "function " ++ str (builtin_name f) ++ str "() { [native code] }"
  | VObjectPrototype => str "[object Object]"
  end.

(** [ToString(f(matched, position, string))] for an inherited function [f]
    called by [replace], that is, with [this] undefined and a string as
    first argument. *)
Definition CallReplacer (f : builtin) (matched : jsstring) : completion jsstring :=
  match f with
  | Object_constructor => Normal matched
  | Object_toString => Normal (str "[object Undefined]")
  | Object_isPrototypeOf => Normal (str "false")
  | _ => Throw TypeError
  end.

(** [GetSubstitution] for a search by string: no captures, so only [$$],
    [$&], [$`] and [$'] are replacement patterns. *)
Fixpoint GetSubstitution (matched preceding following replacement : jsstring) : jsstring :=
  match replacement with
  | [] => []
  | c :: r =>
      if (c =? dollar)%N then
        match r with
        | d :: r' =>
            if (d =? dollar)%N then dollar :: GetSubstitution matched preceding following r'
            else if (d =? ampersand)%N then matched ++ GetSubstitution matched preceding following r'
            else if (d =? backtick)%N then preceding ++ GetSubstitution matched preceding following r'
            else if (d =? apostrophe)%N then following ++ GetSubstitution matched preceding following r'
            else c :: GetSubstitution matched preceding following r
        | [] => [c]
        end
      else c :: GetSubstitution matched preceding following r
  end.

(** [string.replace(searchString, replaceValue)] with a string to search
    for: the first occurrence only. *)
Definition replace (string searchString : jsstring) (replaceValue : jsvalue)
  : completion jsstring :=
  match indexOf string searchString with
  | None => Normal string
  | Some pos =>
      let preceding := take pos string in
      let following := drop (pos + length searchString) string in
      match replaceValue with
      | VFunction f =>
          replStr ← CallReplacer f searchString;
          Normal (preceding ++ replStr ++ following)
      | _ =>
          Normal (preceding
                    ++ GetSubstitution searchString preceding following (ToString replaceValue)
                    ++ following)
      end
  end.

(** *** The regular expression [/%[^\s.]+?%/gm] *)

(** The class [[^\s.]]. *)
Definition keyChar (c : N) : bool :=
  negb (isWhiteSpace c) && negb (c =? period)%N.

(** The lazy [+?] after its first iteration, followed by the closing [%]:
    the closing marker is tried before another iteration. *)
Fixpoint lazyRest (s : jsstring) : option jsstring :=
  match s with
  | [] => None
  | c :: s' =>
      if (c =? percent)%N then Some [c]
      else if keyChar c then (c ::.) <$> lazyRest s'
      else None
  end.

(** One attempt of the expression at the head of [s]: the matched text. *)
Definition regex_exec (s : jsstring) : option jsstring :=
  match s with
  | p :: c :: s' =>
      if (p =? percent)%N && keyChar c then (fun r => p :: c :: r) <$> lazyRest s'
      else None
  | _ => None
  end.

(** The global search: left to right, resuming after each match ([skip]
    counts the code units of the last match still to pass). *)
Fixpoint matchFrom (skip : nat) (s : jsstring) : list jsstring :=
  match s with
  | [] => []
  | _ :: s' =>
      match skip with
      | S k => matchFrom k s'
      | O =>
          match regex_exec s with
          | Some m => m :: matchFrom (length m - 1) s'
          | None => matchFrom 0 s'
          end
      end
  end.

(** [s.match(regex) || []]. *)
Definition matchAll (s : jsstring) : list jsstring := matchFrom 0 s.

End JS.

Import JS.

(** ** The program *)

Module Templatr.

(** [generateTemplate], the loop over [matches]. *)
Fixpoint generateTemplate_loop (matches : list jsstring) (template : jsstring)
  (data : gmap jsstring json) : completion jsstring :=
  match matches with
  | [] => Normal template
  | match_ :: matches' =>
      let key := slice match_ 1 (length match_ - 1) in
      let value := match Get data key with
                   | VUndefined => VJson (JString [])
                   | v => v
                   end in
      template' ← replace template match_ value;
      generateTemplate_loop matches' template' data
  end.

Definition generateTemplate (template : jsstring) (data : gmap jsstring json)
  : completion jsstring :=
  let matches := matchAll template in
  generateTemplate_loop matches template data.

(** *** The environment

    What the program takes from Node.js and from the machine it runs on.
    A call that throws is [None] (for [writeFileSync], [false]).
    [JSON_parse] is [None] on a SyntaxError; the documents it accepts are
    taken to be objects with scalar members, as the program expects. *)
Abbreviation Buffer := (list N).

Record Platform := {
  dirname : jsstring;                                  (* __dirname *)
  PORT : jsstring;                                     (* as it prints *)
  isWindows : bool;
  readFileSync : jsstring → option Buffer;
  Buffer_toString : Buffer → jsstring;
  JSON_parse : jsstring → option (gmap jsstring json);
  writeFileSync : jsstring → jsstring → bool;
  readdir : jsstring → option (list jsstring)
}.

Section Program.

Context (env : Platform).

Definition RESULTS_DIRECTORY : jsstring := dirname env ++ str "/../results".

Definition getFileNameFromPath (path : jsstring) : jsstring :=
  let pathSplit := split path (if isWindows env then backslash else slash) in
  match last pathSplit with
  | Some name => name
  | None => str "undefined"
  end.

Definition readTemplateFile (filePath : jsstring) : completion jsstring :=
  match readFileSync env filePath with
  | Some buffer => Normal (Buffer_toString env buffer)
  | None => Throw SystemError
  end.

Definition readDataFile (filePath : jsstring) : completion (gmap jsstring json) :=
  match readFileSync env filePath with
  | Some buffer =>
      match JSON_parse env (Buffer_toString env buffer) with
      | Some data => Normal data
      | None => Throw SyntaxError
      end
  | None => Throw SystemError
  end.

(** *** The input session

    [run] is an async function: a call runs until its first [await] and
    leaves an activation suspended there; the answer to the question
    resumes it.  What a stretch of execution does is the list of its
    events, in order, and the activations it leaves suspended. *)
Inductive event :=
| Log (line : jsstring)
| Question (query : jsstring)
| WriteFile (fileLocation content : jsstring).

Inductive activation :=
| AwaitTemplatePath
| AwaitDataPath (template templateFileLocation : jsstring).

Record effects := {
  events : list event;
  suspended : list activation
}.

Definition andThen (e1 e2 : effects) : effects :=
  {| events := events e1 ++ events e2; suspended := suspended e1 ++ suspended e2 |}.

Definition nothing : effects := {| events := []; suspended := [] |}.

Definition console_log (line : jsstring) : effects :=
  {| events := [Log line]; suspended := [] |}.

(** [await askQuestion(question)]: the question is put to [rl] and the
    caller is suspended as [k]. *)
Definition askQuestion (question : jsstring) (k : activation) : effects :=
  {| events := [Question (newline :: question)]; suspended := [k] |}.

Definition writeFile (fileLocation content : jsstring) (onError : option effects) : effects :=
  if writeFileSync env fileLocation content then
    {| events := [WriteFile fileLocation content]; suspended := [] |}
  else
    andThen (console_log (str "Could not create file!"))
            (match onError with Some f => f | None => nothing end).

(** [!s] and [s === ''] for a string [s]. *)
Definition falsy (s : jsstring) : bool := bool_decide (s = []).
Definition isEmpty (s : jsstring) : bool := bool_decide (s = []).

(** A call [run()] ([None]) or [run({ template, templateFileLocation })],
    up to its first [await]. *)
Definition run (state : option (jsstring * jsstring)) : effects :=
  match state with
  | Some (template, templateFileLocation) =>
      if falsy template && falsy templateFileLocation then
        askQuestion (str "Enter template file location: ") AwaitTemplatePath
      else
        askQuestion (str "Enter data file location: ")
          (AwaitDataPath template templateFileLocation)
  | None => askQuestion (str "Enter template file location: ") AwaitTemplatePath
  end.

(** The rest of a suspended call, once its question is answered. *)
Definition resume (a : activation) (answer : jsstring) : effects :=
  match a with
  | AwaitTemplatePath =>
      let templateFileLocation := trim answer in
      if isEmpty templateFileLocation || negb (includes templateFileLocation (str ".html")) then
        andThen (console_log (str "Template file should be of type html!")) (run None)
      else
        match readTemplateFile templateFileLocation with
        | Throw _ =>
            andThen (console_log (str "File '" ++ templateFileLocation ++ str "' not found!"))
                    (run None)
        | Normal template =>
            askQuestion (str "Enter data file location: ")
              (AwaitDataPath template templateFileLocation)
        end
  | AwaitDataPath template templateFileLocation =>
      let templateFileName := getFileNameFromPath templateFileLocation in
      let dataFileLocation := trim answer in
      if isEmpty dataFileLocation || negb (includes dataFileLocation (str ".json")) then
        andThen (console_log (str "Data file should be of type JSON!"))
                (run (Some (template, templateFileLocation)))
      else
        match readDataFile dataFileLocation with
        | Throw error =>
            andThen
              (if decide (error_name error = str "SyntaxError") then
                 console_log (str "File '" ++ dataFileLocation ++ str "' is invalid JSON!")
               else
                 console_log (str "File '" ++ dataFileLocation ++ str "' not found!"))
              (run (Some (template, templateFileLocation)))
        | Normal data =>
            match generateTemplate template data with
            | Throw _ => nothing
            | Normal newContent =>
                andThen
                  (writeFile (RESULTS_DIRECTORY ++ str "/" ++ templateFileName) newContent
                     (Some (run None)))
                  (andThen
                     (console_log (str "New file is served on https://localhost:"
                                     ++ PORT env ++ str "/" ++ templateFileName))
                     (run None))
            end
        end
  end.

(** *** The static server *)
Inductive body :=
| Text (s : jsstring)
| Bytes (b : Buffer).

Record response := {
  statusCode : nat;
  contentType : jsstring;
  content : body
}.

(** How the promise of [generateIndex] ends: resolved, rejected, or never
    settled because the [readdir] callback itself threw. *)
Inductive settlement :=
| Resolved (html : jsstring)
| Rejected (err : error)
| CallbackThrew (e : error).

Definition generateIndex (directory : jsstring) : settlement :=
  let err := match readdir env directory with
             | Some _ => None
             | None => Some SystemError
             end in
  let files := readdir env directory in
  match files with
  | None => CallbackThrew TypeError
  | Some files =>
      let files := filter (fun file => file ≠ str ".gitignore") files in
      match err with
      | Some err => Rejected err
      | None =>
          Resolved
            (str "<html><body>" ++ [newline] ++ str "      "
               ++ (if decide (length files = 0) then str "No files found!"
                   else concat (map (fun file =>
                          str "<a href=" ++ [quote] ++ str "https://localhost:" ++ PORT env
                            ++ str "/" ++ file ++ [quote] ++ str ">" ++ file
                            ++ str "</a><br />") files))
               ++ [newline] ++ str "      </body></html>")
      end
  end.

Definition serveHtml (html : body) : response :=
  {| statusCode := 200; contentType := str "text/html"; content := html |}.

(** What a request ends in: a response, or an exception nobody catches,
    with nothing written to [res]. *)
Inductive outcome :=
| Responded (res : response)
| UncaughtException (e : error).

Definition httpsRequestHandler (url : jsstring) : outcome :=
  if decide (url = str "/") then
    match generateIndex RESULTS_DIRECTORY with
    | Resolved index => Responded (serveHtml (Text index))
    | Rejected _ =>
        Responded {| statusCode := 404; contentType := str "text/plain";
                     content := Text (str "Could not generate index") |}
    | CallbackThrew e => UncaughtException e
    end
  else
    match readFileSync env (RESULTS_DIRECTORY ++ str "/" ++ url) with
    | Some buffer => Responded (serveHtml (Bytes buffer))
    | None =>
        Responded {| statusCode := 404; contentType := str "text/plain";
                     content := Text (str "File not found!") |}
    end.

End Program.

(** The activations a session can reach from the initial call [run()],
    whatever the operator answers and whatever the environment holds at
    each step. *)
Inductive reachable : activation → Prop :=
| reachable_start a :
    a ∈ suspended (run None) → reachable a
| reachable_resume env a answer a' :
    reachable a → a' ∈ suspended (resume env a answer) → reachable a'.

End Templatr.

Import Templatr.

(** ** What the specification says, in the program's terms *)

Module Spec.

(** The token pattern as the specification words it: the marker, one or
    more characters that are neither whitespace nor the marker nor a
    period, the marker again. *)
Definition specKeyChar (c : N) : bool :=
  negb (isWhiteSpace c) && negb (c =? percent)%N && negb (c =? period)%N.

Fixpoint specRest (s : jsstring) : option jsstring :=
  match s with
  | [] => None
  | c :: s' =>
      if (c =? percent)%N then Some [c]
      else if specKeyChar c then (c ::.) <$> specRest s'
      else None
  end.

Definition spec_exec (s : jsstring) : option jsstring :=
  match s with
  | p :: c :: s' =>
      if (p =? percent)%N && specKeyChar c then (fun r => p :: c :: r) <$> specRest s'
      else None
  | _ => None
  end.

(** A template cut, left to right, into the tokens a pattern recognizes
    and the characters between them. *)
Inductive segment :=
| Verbatim (c : N)
| Token (t : jsstring).

Fixpoint segmentsFrom (exec : jsstring → option jsstring) (skip : nat) (s : jsstring)
  : list segment :=
  match s with
  | [] => []
  | c :: s' =>
      match skip with
      | S k => segmentsFrom exec k s'
      | O =>
          match exec s with
          | Some m => Token m :: segmentsFrom exec (length m - 1) s'
          | None => Verbatim c :: segmentsFrom exec 0 s'
          end
      end
  end.

Definition tokensOf (l : list segment) : list jsstring :=
  omap (fun seg => match seg with Token t => Some t | Verbatim _ => None end) l.

Definition raw (seg : segment) : jsstring :=
  match seg with
  | Verbatim c => [c]
  | Token t => t
  end.

(** The key of a token, and what the token is to be replaced by: the
    string form of the key's value, the empty string for an absent key. *)
Definition keyOf (t : jsstring) : jsstring := slice t 1 (length t - 1).

Definition replacement (data : gmap jsstring json) (t : jsstring) : jsstring :=
  match data !! keyOf t with
  | Some j => ToString (VJson j)
  | None => []
  end.

Definition substituted (data : gmap jsstring json) (seg : segment) : jsstring :=
  match seg with
  | Verbatim c => [c]
  | Token t => replacement data t
  end.

(** Substitution over the specification's pattern, and over the program's. *)
Definition specSegments (T : jsstring) : list segment := segmentsFrom spec_exec 0 T.
Definition specTokens (T : jsstring) : list jsstring := tokensOf (specSegments T).
Definition specRender (data : gmap jsstring json) (T : jsstring) : jsstring :=
  concat (map (substituted data) (specSegments T)).

Definition segments (T : jsstring) : list segment := segmentsFrom regex_exec 0 T.
Definition render (data : gmap jsstring json) (T : jsstring) : jsstring :=
  concat (map (substituted data) (segments T)).

(** The indices at which [t] occurs in [T]. *)
Definition occurrences (T t : jsstring) : list nat :=
  filter (fun i => startsWith (drop i T) t = true) (seq 0 (length T)).

(** The shape of the tokens the program's expression matches: the marker,
    one character that is neither whitespace nor a period, then characters
    that are neither whitespace nor a period nor the marker, the marker. *)
Definition isToken (t : jsstring) : Prop :=
  ∃ c k, t = percent :: c :: k ++ [percent]
         ∧ (isWhiteSpace c = false ∧ c ≠ period)
         ∧ Forall (fun x => isWhiteSpace x = false ∧ x ≠ period ∧ x ≠ percent) k.

(** The left-to-right search: at each position the token that starts
    there, if any, is taken and the search resumes after it. *)
Inductive Scan : jsstring → list jsstring → Prop :=
| Scan_end : Scan [] []
| Scan_token t rest l :
    isToken t → Scan rest l → Scan (t ++ rest) (t :: l)
| Scan_other c s l :
    (∀ t rest, isToken t → c :: s ≠ t ++ rest) → Scan s l → Scan (c :: s) l.

(** The output in which every token met by that search is replaced and
    everything else is kept. *)
Inductive Substituted (data : gmap jsstring json) : jsstring → jsstring → Prop :=
| Substituted_end : Substituted data [] []
| Substituted_token t rest out :
    isToken t → Substituted data rest out →
    Substituted data (t ++ rest) (replacement data t ++ out)
| Substituted_other c s out :
    (∀ t rest, isToken t → c :: s ≠ t ++ rest) → Substituted data s out →
    Substituted data (c :: s) (c :: out).

(** No token anywhere in [s]. *)
Definition tokenFree (s : jsstring) : Prop :=
  ∀ before t after, s = before ++ t ++ after → ¬ isToken t.

(** The values for which the program's replacement is the plain one: the
    value put in for each matched token holds neither the marker nor a
    dollar sign, and a key the data lacks is none of the names an object
    inherits. *)
Definition tame (T : jsstring) (data : gmap jsstring json) : Prop :=
  Forall (fun t =>
            (percent ∉ replacement data t)
            ∧ (dollar ∉ replacement data t)
            ∧ (data !! keyOf t = None → assoc (keyOf t) ObjectPrototype = VUndefined))
         (matchAll T).

End Spec.

Import Spec.

(** ** Concrete environments and inputs, for the examples *)

Module Demo.

Definition hello : jsstring := str "<p>Hello %name%!</p>".
Definition dasha : gmap jsstring json := {[ str "name" := JString (str "Dasha") ]}.

Definition ab : gmap jsstring json :=
  {[ str "a" := JString (str "%b%"); str "b" := JString (str "X") ]}.
Definition xy : gmap jsstring json :=
  {[ str "x" := JString (str "%y%"); str "y" := JString (str "Y") ]}.
Definition aX : gmap jsstring json := {[ str "a" := JString (str "X") ]}.
Definition nested : gmap jsstring json := {[ str "a" := JString (str "<%a%>") ]}.
Definition price : gmap jsstring json := {[ str "price" := JString (str "$$5") ]}.
Definition markers : gmap jsstring json := {[ str "a" := JString (str "%%%") ]}.
Definition numbers : gmap jsstring json :=
  {[ str "a" := JNumber (str "1"); str "b" := JString (str "two") ]}.

(** A machine with a template and two data files, one of them broken; here
    a file's bytes are its text, and only the text [{"name":"Dasha"}]
    parses.  Nothing can be written and the results directory is missing. *)
Definition dashaJson : jsstring :=
  str "{" ++ [quote] ++ str "name" ++ [quote] ++ str ":" ++ [quote] ++ str "Dasha"
    ++ [quote] ++ str "}".

Definition files : gmap jsstring Buffer :=
  {[ str "/home/d/template.html" := hello;
     str "/home/d/data.json" := dashaJson;
     str "/home/d/broken.json" := str "{name:" ]}.

Definition machine : Platform :=
  {| dirname := str "/opt/templatr/bin";
     PORT := str "3000";
     isWindows := false;
     readFileSync := fun filePath => files !! filePath;
     Buffer_toString := fun buffer => buffer;
     JSON_parse := fun text => if decide (text = dashaJson) then Some dasha else None;
     writeFileSync := fun _ _ => false;
     readdir := fun _ => None |}.

(** The same machine with a results directory that holds one file and can
    be written to. *)
Definition served : Platform :=
  {| dirname := dirname machine;
     PORT := PORT machine;
     isWindows := false;
     readFileSync := fun filePath =>
       if decide (filePath = str "/opt/templatr/bin/../results//template.html")
       then Some (str "<p>Hello Dasha!</p>")
       else files !! filePath;
     Buffer_toString := fun buffer => buffer;
     JSON_parse := JSON_parse machine;
     writeFileSync := fun _ _ => true;
     readdir := fun directory =>
       if decide (directory = str "/opt/templatr/bin/../results")
       then Some [str ".gitignore"; str "template.html"]
       else None |}.

End Demo.

(** ** Further notions, for the properties of the program beyond the claims *)

Module More.

(** The names an object inherits as functions that throw when [replace]
    calls them: with [this] undefined they fail to convert it to an
    object. *)
Definition throwingNames : list jsstring :=
  [ str "hasOwnProperty"; str "propertyIsEnumerable"; str "toLocaleString";
    str "valueOf"; str "__defineGetter__"; str "__defineSetter__";
    str "__lookupGetter__"; str "__lookupSetter__" ].

(** A segment with its token, if it is one, taken out. *)
Definition verbatimOnly (seg : segment) : jsstring :=
  match seg with
  | Verbatim c => [c]
  | Token _ => []
  end.

(** The separator [getFileNameFromPath] splits on. *)
Definition separator (env : Platform) : N :=
  if isWindows env then backslash else slash.

(** The queries put to [rl] among some events, and the query a suspended
    call waits on. *)
Definition asked (l : list event) : list jsstring :=
  omap (fun e => match e with Question query => Some query | _ => None end) l.

Definition awaits (a : activation) : jsstring :=
  match a with
  | AwaitTemplatePath => newline :: str "Enter template file location: "
  | AwaitDataPath _ _ => newline :: str "Enter data file location: "
  end.

(** The files written among some events. *)
Definition written (l : list event) : list (jsstring * jsstring) :=
  omap (fun e => match e with
                 | WriteFile fileLocation content => Some (fileLocation, content)
                 | _ => None
                 end) l.

(** The pieces of the index page. *)
Definition gitignore : jsstring := str ".gitignore".

Definition anchor (env : Platform) (file : jsstring) : jsstring :=
  str "<a href=" ++ [quote] ++ str "https://localhost:" ++ PORT env
    ++ str "/" ++ file ++ [quote] ++ str ">" ++ file ++ str "</a><br />".

Definition page (inner : jsstring) : jsstring :=
  str "<html><body>" ++ [newline] ++ str "      " ++ inner
    ++ [newline] ++ str "      </body></html>".

End More.

Import More.

(** ** Facts about the built-ins *)

Module JSFacts.

Lemma bind_Normal {A B} (a : A) (f : A → completion B) : Normal a ≫= f = f a.
Proof. reflexivity. Qed.

Lemma startsWith_app pat r : startsWith (pat ++ r) pat = true.
Proof.
  induction pat as [|p pat IH]; simpl; [done|].
  by rewrite N.eqb_refl.
Qed.

Lemma startsWith_true s pat : startsWith s pat = true → ∃ r, s = pat ++ r.
Proof.
  revert s. induction pat as [|p pat IH]; intros s H.
  - by exists s.
  - destruct s as [|c s]; simpl in H; [done|].
    apply andb_true_iff in H as [H1 H2].
    apply N.eqb_eq in H1 as ->.
    destruct (IH _ H2) as [r ->]. by exists r.
Qed.

Lemma indexOf_unfold s pat :
  indexOf s pat =
    if startsWith s pat then Some 0
    else match s with
         | [] => None
         | _ :: s' => S <$> indexOf s' pat
         end.
Proof. by destruct s. Qed.

(** The first occurrence is where no earlier position starts one. *)
Lemma indexOf_first before pat r :
  (∀ i, i < length before → startsWith (drop i (before ++ pat ++ r)) pat = false) →
  indexOf (before ++ pat ++ r) pat = Some (length before).
Proof.
  induction before as [|a before IH]; intros H.
  - rewrite indexOf_unfold. simpl. by rewrite startsWith_app.
  - rewrite indexOf_unfold.
    pose proof (H 0) as H0. simpl in H0. simpl app.
    rewrite H0 by lia. simpl.
    rewrite IH; [done|].
    intros i Hi. apply (H (S i)). simpl. lia.
Qed.

Lemma GetSubstitution_plain matched preceding following v :
  dollar ∉ v → GetSubstitution matched preceding following v = v.
Proof.
  induction v as [|c v IH]; intros H; [done|].
  assert ((c =? dollar)%N = false) as E.
  { apply N.eqb_neq. intros ->. apply H. left. }
  simpl. rewrite E. f_equal. apply IH. intros ?. apply H. by right.
Qed.

Lemma keyChar_true c :
  keyChar c = true ↔ isWhiteSpace c = false ∧ c ≠ period.
Proof.
  unfold keyChar. rewrite andb_true_iff, !negb_true_iff, N.eqb_neq. tauto.
Qed.

Lemma keyChar_percent : keyChar percent = true.
Proof. reflexivity. Qed.

Lemma lazyRest_unfold c s :
  lazyRest (c :: s) =
    if (c =? percent)%N then Some [c]
    else if keyChar c then (c ::.) <$> lazyRest s
    else None.
Proof. reflexivity. Qed.

Lemma lazyRest_Some s r :
  lazyRest s = Some r →
  ∃ k rest, s = k ++ percent :: rest ∧ r = k ++ [percent]
            ∧ Forall (fun x => isWhiteSpace x = false ∧ x ≠ period ∧ x ≠ percent) k.
Proof.
  revert r. induction s as [|c s IH]; intros r H; [done|].
  rewrite lazyRest_unfold in H.
  destruct (c =? percent)%N eqn:E.
  - apply N.eqb_eq in E as ->. injection H as <-.
    by exists [], s.
  - destruct (keyChar c) eqn:K; [|done].
    destruct (lazyRest s) as [r'|]; [|done].
    injection H as <-.
    destruct (IH _ eq_refl) as (k & rest & -> & -> & Hk).
    exists (c :: k), rest. split_and!; [done..|].
    constructor; [|done].
    apply keyChar_true in K as [??]. by apply N.eqb_neq in E.
Qed.

Lemma lazyRest_complete k rest :
  Forall (fun x => isWhiteSpace x = false ∧ x ≠ period ∧ x ≠ percent) k →
  lazyRest (k ++ percent :: rest) = Some (k ++ [percent]).
Proof.
  induction 1 as [|c k (Hw & Hp & Hm) _ IH]; [done|].
  simpl app. rewrite lazyRest_unfold.
  apply N.eqb_neq in Hm as ->.
  assert (keyChar c = true) as -> by by apply keyChar_true.
  by rewrite IH.
Qed.

(** A search that fails although a marker lies ahead has failed before
    it: what comes after that point is of no account. *)
Lemma lazyRest_stuck x y z :
  lazyRest (x ++ percent :: y) = None → lazyRest (x ++ z) = None.
Proof.
  induction x as [|a x IH]; intros H; [done|].
  simpl app in *. rewrite lazyRest_unfold in *.
  destruct (a =? percent)%N; [done|].
  destruct (keyChar a); [|done].
  destruct (lazyRest (x ++ percent :: y)); [done|].
  by rewrite IH.
Qed.

Lemma regex_exec_Some s m :
  regex_exec s = Some m → isToken m ∧ ∃ r, s = m ++ r.
Proof.
  destruct s as [|p [|c s]]; [done..|]. unfold regex_exec.
  destruct (p =? percent)%N eqn:E; [|done].
  destruct (keyChar c) eqn:K; [|done]. simpl.
  destruct (lazyRest s) as [r|] eqn:L; [|done].
  intros [= <-]. apply N.eqb_eq in E as ->.
  destruct (lazyRest_Some _ _ L) as (k & rest & -> & -> & Hk).
  split.
  - exists c, k. split_and!; [done| by apply keyChar_true..|done].
  - exists rest. simpl. by rewrite <- app_assoc.
Qed.

Lemma regex_exec_token t r : isToken t → regex_exec (t ++ r) = Some t.
Proof.
  intros (c & k & -> & Hc & Hk). simpl. rewrite <- app_assoc. simpl.
  assert (keyChar c = true) as -> by by apply keyChar_true.
  by rewrite lazyRest_complete.
Qed.

Lemma regex_exec_None s :
  regex_exec s = None ↔ ∀ t r, isToken t → s ≠ t ++ r.
Proof.
  split.
  - intros H t r Ht ->. by rewrite regex_exec_token in H.
  - intros H. destruct (regex_exec s) as [m|] eqn:E; [|done].
    destruct (regex_exec_Some _ _ E) as (Ht & r & ->). by destruct (H m r).
Qed.

Lemma regex_exec_head c s : c ≠ percent → regex_exec (c :: s) = None.
Proof.
  intros H. destruct s; [done|]. unfold regex_exec.
  by apply N.eqb_neq in H as ->.
Qed.

Lemma token_length t : isToken t → ∃ c t', t = c :: t'.
Proof. intros (c & k & -> & _). eauto. Qed.

(** The search resumes after the match. *)
Lemma matchFrom_drop k s : matchFrom k s = matchFrom 0 (drop k s).
Proof.
  revert k. induction s as [|c s IH]; intros [|k]; try done.
  simpl. apply IH.
Qed.

Lemma matchFrom_cons c s :
  matchFrom 0 (c :: s) =
    match regex_exec (c :: s) with
    | Some m => m :: matchFrom (length m - 1) s
    | None => matchFrom 0 s
    end.
Proof. reflexivity. Qed.

Lemma matchAll_token m r :
  regex_exec (m ++ r) = Some m → matchAll (m ++ r) = m :: matchAll r.
Proof.
  intros H. destruct (regex_exec_Some _ _ H) as [Ht _].
  destruct (token_length _ Ht) as (c & m' & ->).
  unfold matchAll. simpl app in *. rewrite matchFrom_cons, H.
  f_equal. rewrite matchFrom_drop. simpl. rewrite Nat.sub_0_r.
  by rewrite drop_app_length.
Qed.

Lemma matchAll_other c s :
  regex_exec (c :: s) = None → matchAll (c :: s) = matchAll s.
Proof. intros H. unfold matchAll. by rewrite matchFrom_cons, H. Qed.

Lemma segmentsFrom_drop k s :
  segmentsFrom regex_exec k s = segmentsFrom regex_exec 0 (drop k s).
Proof.
  revert k. induction s as [|c s IH]; intros [|k]; try done.
  simpl. apply IH.
Qed.

Lemma segmentsFrom_cons c s :
  segmentsFrom regex_exec 0 (c :: s) =
    match regex_exec (c :: s) with
    | Some m => Token m :: segmentsFrom regex_exec (length m - 1) s
    | None => Verbatim c :: segmentsFrom regex_exec 0 s
    end.
Proof. reflexivity. Qed.

Lemma segments_token m r :
  regex_exec (m ++ r) = Some m → segments (m ++ r) = Token m :: segments r.
Proof.
  intros H. destruct (regex_exec_Some _ _ H) as [Ht _].
  destruct (token_length _ Ht) as (c & m' & ->).
  unfold segments. simpl app in *. rewrite segmentsFrom_cons, H.
  f_equal. rewrite segmentsFrom_drop. simpl. rewrite Nat.sub_0_r.
  by rewrite drop_app_length.
Qed.

Lemma segments_other c s :
  regex_exec (c :: s) = None → segments (c :: s) = Verbatim c :: segments s.
Proof. intros H. unfold segments. by rewrite segmentsFrom_cons, H. Qed.

(** Induction along the search. *)
Lemma scan_ind (P : jsstring → Prop) :
  P [] →
  (∀ m r, regex_exec (m ++ r) = Some m → P r → P (m ++ r)) →
  (∀ c s, regex_exec (c :: s) = None → P s → P (c :: s)) →
  ∀ s, P s.
Proof.
  intros Hnil Htok Hoth s.
  cut (∀ n s, length s ≤ n → P s); [by eauto|].
  clear s. induction n as [|n IH]; intros [|c s] Hlen; simpl in Hlen; [done|lia|done|].
  destruct (regex_exec (c :: s)) as [m|] eqn:E.
  - destruct (regex_exec_Some _ _ E) as (Ht & r & Hr).
    rewrite Hr in *. apply Htok; [done|]. apply IH.
    destruct (token_length _ Ht) as (? & ? & ->).
    injection Hr as -> ->. rewrite length_app in Hlen. lia.
  - apply Hoth; [done|]. apply IH. lia.
Qed.

End JSFacts.

(** ** Facts about the template engine *)

Module EngineFacts.
Import JSFacts.

Lemma Scan_matchAll s : Scan s (matchAll s).
Proof.
  induction s as [|m r E IH|c s E IH] using scan_ind.
  - constructor.
  - rewrite (matchAll_token _ _ E).
    constructor; [|done]. by destruct (regex_exec_Some _ _ E).
  - rewrite (matchAll_other _ _ E).
    constructor; [|done]. by apply regex_exec_None.
Qed.

Lemma Scan_functional s l : Scan s l → l = matchAll s.
Proof.
  induction 1 as [|t rest l Ht _ ->|c s l Hno _ ->].
  - done.
  - by rewrite (matchAll_token t rest) by by apply regex_exec_token.
  - by rewrite matchAll_other by by apply regex_exec_None.
Qed.

Lemma matchAll_tokens s t : t ∈ matchAll s → isToken t.
Proof.
  induction s as [|m r E IH|c s E IH] using scan_ind.
  - by intros ?%elem_of_nil.
  - rewrite (matchAll_token _ _ E). intros [->|?]%elem_of_cons; [|by auto].
    by destruct (regex_exec_Some _ _ E).
  - by rewrite (matchAll_other _ _ E).
Qed.

Lemma tokensOf_segments s : tokensOf (segments s) = matchAll s.
Proof.
  induction s as [|m r E IH|c s E IH] using scan_ind.
  - done.
  - rewrite (matchAll_token _ _ E), (segments_token _ _ E).
    simpl. f_equal. exact IH.
  - rewrite (matchAll_other _ _ E), (segments_other _ _ E).
    exact IH.
Qed.

Lemma raw_segments s : concat (map raw (segments s)) = s.
Proof.
  induction s as [|m r E IH|c s E IH] using scan_ind.
  - done.
  - rewrite (segments_token _ _ E). simpl. by rewrite IH.
  - rewrite (segments_other _ _ E). simpl. by rewrite IH.
Qed.

Lemma render_token data m r :
  regex_exec (m ++ r) = Some m → render data (m ++ r) = replacement data m ++ render data r.
Proof. intros E. unfold render. by rewrite (segments_token _ _ E). Qed.

Lemma render_other data c s :
  regex_exec (c :: s) = None → render data (c :: s) = c :: render data s.
Proof. intros E. unfold render. by rewrite (segments_other _ _ E). Qed.

Lemma Substituted_render data s : Substituted data s (render data s).
Proof.
  induction s as [|m r E IH|c s E IH] using scan_ind.
  - constructor.
  - rewrite (render_token _ _ _ E).
    constructor; [|done]. by destruct (regex_exec_Some _ _ E).
  - rewrite (render_other _ _ _ E).
    constructor; [|done]. by apply regex_exec_None.
Qed.

Lemma Substituted_functional data s out : Substituted data s out → out = render data s.
Proof.
  induction 1 as [|t rest out Ht _ ->|c s out Hno _ ->].
  - done.
  - by rewrite (render_token data t rest) by by apply regex_exec_token.
  - by rewrite render_other by by apply regex_exec_None.
Qed.

(** A template without tokens has no match. *)
Lemma tokenFree_matchAll s : tokenFree s → matchAll s = [].
Proof.
  induction s as [|m r E IH|c s E IH] using scan_ind; intros Hfree.
  - done.
  - destruct (regex_exec_Some _ _ E) as [Ht _].
    by destruct (Hfree [] m r).
  - rewrite (matchAll_other _ _ E). apply IH.
    intros before t after ->. by apply (Hfree (c :: before) t after).
Qed.

Lemma matchAll_tokenFree s : matchAll s = [] → tokenFree s.
Proof.
  intros Hnil before t after -> Ht. revert Hnil.
  induction before as [|c before IH]; simpl.
  - by rewrite (matchAll_token t after) by by apply regex_exec_token.
  - destruct (regex_exec (c :: before ++ t ++ after)) as [m|] eqn:E.
    + destruct (regex_exec_Some _ _ E) as (_ & r & Hr).
      rewrite Hr in *. by rewrite (matchAll_token _ _ E).
    + by rewrite (matchAll_other _ _ E).
Qed.

(** The value put in for a token, when the data are tame. *)
Lemma tame_value T data t :
  tame T data → t ∈ matchAll T →
  ∃ j, match Get data (keyOf t) with
       | VUndefined => VJson (JString [])
       | v => v
       end = VJson j
       ∧ ToString (VJson j) = replacement data t.
Proof.
  intros Htame Ht.
  destruct (proj1 (Forall_forall _ _) Htame t Ht) as (_ & _ & Hproto).
  unfold Get, replacement. destruct (data !! keyOf t) as [j|].
  - by exists j.
  - rewrite Hproto by done. by exists (JString []).
Qed.

(** One replacement, when no token starts before the match and the value
    is plain: the match itself is replaced, by the value as it is. *)
Lemma replace_at before m r j :
  (∀ i, i < length before → regex_exec (drop i (before ++ m ++ r)) = None) →
  isToken m →
  dollar ∉ ToString (VJson j) →
  replace (before ++ m ++ r) m (VJson j) = Normal (before ++ ToString (VJson j) ++ r).
Proof.
  intros Hno Ht Hd. unfold replace.
  rewrite indexOf_first.
  - rewrite take_app_length.
    rewrite <- drop_drop, drop_app_length, drop_app_length.
    by rewrite GetSubstitution_plain.
  - intros i Hi. destruct (startsWith _ m) eqn:E; [|done].
    apply startsWith_true in E as [r' E].
    specialize (Hno i Hi). rewrite E in Hno.
    by rewrite regex_exec_token in Hno.
Qed.

(** A marker in front of a token starts a token. *)
Lemma token_after_percent m r : isToken m → regex_exec (percent :: m ++ r) ≠ None.
Proof.
  intros (c & k & -> & Hc & Hk).
  destruct (decide (c = percent)) as [->|Hne].
  - replace (percent :: (percent :: percent :: k ++ [percent]) ++ r)
      with ([percent; percent; percent] ++ k ++ [percent] ++ r)
      by (simpl; by rewrite <- !app_assoc).
    rewrite regex_exec_token; [done|].
    by exists percent, [].
  - replace (percent :: (percent :: c :: k ++ [percent]) ++ r)
      with ((percent :: percent :: (c :: k) ++ [percent]) ++ r)
      by (simpl; by rewrite <- !app_assoc).
    rewrite regex_exec_token; [done|].
    exists percent, (c :: k). split_and!; [done..|].
    constructor; [|done]. destruct Hc. done.
Qed.

Lemma regex_exec_cons2 p c s :
  regex_exec (p :: c :: s) =
    if (p =? percent)%N && keyChar c then (fun r => p :: c :: r) <$> lazyRest s
    else None.
Proof. reflexivity. Qed.

(** Putting a marker-free value in for a match starts no token before the
    point the search has reached. *)
Lemma no_token_before_step before m r v :
  (∀ i, i < length before → regex_exec (drop i (before ++ m ++ r)) = None) →
  isToken m →
  percent ∉ v →
  ∀ i, i < length (before ++ v) → regex_exec (drop i ((before ++ v) ++ r)) = None.
Proof.
  intros Hno Ht Hv i Hi.
  rewrite <- app_assoc.
  destruct (decide (i < length before)) as [Hlt|Hge].
  - specialize (Hno i Hlt). rewrite drop_app_le in * by lia.
    destruct (drop i before) as [|p [|c1 d]] eqn:Ed.
    + apply (f_equal length) in Ed. rewrite length_drop in Ed. simpl in Ed. lia.
    + destruct (decide (p = percent)) as [->|Hp].
      * by destruct (token_after_percent m r Ht).
      * by apply regex_exec_head.
    + destruct Ht as (c & k & -> & _).
      simpl app in *. rewrite regex_exec_cons2 in *.
      destruct ((p =? percent)%N && keyChar c1); [|done].
      destruct (lazyRest (d ++ percent :: _)) eqn:L; [done|].
      by rewrite (lazyRest_stuck _ _ _ L).
  - rewrite drop_app_ge by lia.
    rewrite length_app in Hi.
    destruct (drop (i - length before) (v ++ r)) as [|a d] eqn:Ed; [done|].
    apply regex_exec_head. intros ->. apply Hv.
    apply (list_elem_of_lookup_2 _ (i - length before)).
    rewrite <- (lookup_app_l _ r) by lia.
    rewrite <- (Nat.add_0_r (i - length before)), <- lookup_drop.
    by rewrite Ed.
Qed.

(** The loop, from a point the search has reached: every remaining match
    is replaced where it stands. *)
Lemma generateTemplate_loop_render T data s :
  tame T data →
  (∀ t, t ∈ matchAll s → t ∈ matchAll T) →
  ∀ before,
    (∀ i, i < length before → regex_exec (drop i (before ++ s)) = None) →
    generateTemplate_loop (matchAll s) (before ++ s) data
    = Normal (before ++ render data s).
Proof.
  intros Htame.
  induction s as [|m r E IH|c s E IH] using scan_ind; intros Hsub before Hno.
  - done.
  - destruct (regex_exec_Some _ _ E) as [Ht _].
    rewrite (matchAll_token _ _ E) in *. rewrite (render_token _ _ _ E).
    assert (m ∈ matchAll T) as HmT by (apply Hsub; left).
    destruct (tame_value _ _ _ Htame HmT) as (j & Hv & Hj).
    destruct (proj1 (Forall_forall _ _) Htame m HmT) as (Hp & Hd & _).
    simpl. fold (keyOf m). rewrite Hv.
    rewrite replace_at by (rewrite ?Hj; done).
    rewrite bind_Normal, Hj, app_assoc.
    rewrite IH; [by rewrite <- app_assoc| |].
    + intros t Hin. apply Hsub. by right.
    + by apply (no_token_before_step before m).
  - rewrite (matchAll_other _ _ E) in *. rewrite (render_other _ _ _ E).
    replace (before ++ c :: s) with ((before ++ [c]) ++ s) in * by by rewrite <- app_assoc.
    rewrite IH; [by rewrite <- app_assoc|done|].
    intros i Hi. rewrite length_app in Hi. simpl in Hi.
    destruct (decide (i < length before)) as [Hlt|Hge]; [by apply Hno|].
    replace i with (length before) by lia.
    rewrite <- app_assoc, drop_app_length. done.
Qed.

(** On tame data the program's output is the substitution. *)
Lemma generateTemplate_render T data :
  tame T data → generateTemplate T data = Normal (render data T).
Proof.
  intros Htame. unfold generateTemplate.
  apply (generateTemplate_loop_render T data T Htame (fun _ H => H) []).
  simpl. lia.
Qed.

End EngineFacts.

(** ** The template engine: what [generateTemplate] returns *)

Module Engine.
Import Demo JSFacts EngineFacts.

Lemma keyOf_token c k : keyOf (percent :: c :: k ++ [percent]) = c :: k.
Proof.
  unfold keyOf, slice. simpl. rewrite length_app. simpl.
  replace (length k + 1 - 0) with (S (length k)) by lia.
  simpl. by rewrite take_app_length.
Qed.

(** The examples of the README and of the specification. *)
Example generateTemplate_hello :
  generateTemplate hello dasha = Normal (str "<p>Hello Dasha!</p>").
Proof. by vm_compute. Qed.

Example generateTemplate_absent_key :
  generateTemplate (str "%a% %b%") aX = Normal (str "X ").
Proof. by vm_compute. Qed.

(** C1, as the specification words it, fails: over the specification's
    pattern the template [%%a%] holds the token [%a%] after a stray marker,
    so with [a] set to [X] the output would be [%X]; the program matches
    the whole of [%%a%] as one token with key [%a], which the data lack,
    and returns the empty string. *)
Lemma generateTemplate_spec_pattern_differs :
  specTokens (str "%%a%") = [str "%a%"]
  ∧ specRender aX (str "%%a%") = str "%X"
  ∧ generateTemplate (str "%%a%") aX = Normal []
  ∧ generateTemplate (str "%%a%") aX ≠ Normal (specRender aX (str "%%a%")).
Proof. split_and!; [by vm_compute..|]. vm_compute. discriminate. Qed.

(** C1, amended: when the value put in for each matched token holds
    neither the marker nor a dollar sign, and no matched key the data lack
    is a name every object inherits, [generateTemplate T D] returns the
    template in which every token found by the left-to-right search (the
    marker, one character that is neither whitespace nor a period, then
    characters that are neither whitespace, period nor marker, the marker)
    is replaced by the string form of its key's value, or by the empty
    string when the data lack the key, and every other character is kept
    as it is and where it is. *)
Theorem generateTemplate_substitutes T data :
  tame T data →
  ∃ out, generateTemplate T data = Normal out ∧ Substituted data T out.
Proof.
  intros Htame. exists (render data T). split.
  - by apply generateTemplate_render.
  - apply Substituted_render.
Qed.

Lemma generateTemplate_substitutes_hello :
  tame hello dasha
  ∧ ∃ out, generateTemplate hello dasha = Normal out ∧ Substituted dasha hello out.
Proof.
  assert (tame hello dasha) as Htame.
  { unfold tame. apply (bool_decide_unpack _). vm_compute. exact I. }
  split; [exact Htame|].
  exact (generateTemplate_substitutes hello dasha Htame).
Defined.

(** C2, as the specification words it, fails: in [%%a%] the program
    recognizes the token [%%a%], whose key [%a] holds the marker; the
    specification's pattern gives the token [%a%]. *)
Lemma matchAll_key_with_marker :
  matchAll (str "%%a%") = [str "%%a%"]
  ∧ specTokens (str "%%a%") = [str "%a%"]
  ∧ percent ∈ keyOf (str "%%a%").
Proof. split_and!; [by vm_compute..|]. vm_compute. left. Qed.

(** C2, amended: the tokens [generateTemplate] recognizes in a template are
    exactly those of the left-to-right, non-overlapping search for: the
    marker, one character that is neither whitespace nor a period (it may
    be the marker), then any number of characters that are neither
    whitespace nor a period nor the marker, then the marker.  So a key is
    never empty, holds no whitespace and no period, and holds the marker
    at most as its first character. *)
Theorem matchAll_scan T :
  (∀ l, Scan T l ↔ l = matchAll T)
  ∧ (∀ t, t ∈ matchAll T →
       ∃ c k, t = percent :: keyOf t ++ [percent]
              ∧ keyOf t = c :: k
              ∧ (isWhiteSpace c = false ∧ c ≠ period)
              ∧ Forall (fun x => isWhiteSpace x = false ∧ x ≠ period ∧ x ≠ percent) k).
Proof.
  split.
  - intros l. split; [apply Scan_functional|intros ->; apply Scan_matchAll].
  - intros t Ht. destruct (matchAll_tokens _ _ Ht) as (c & k & -> & Hc & Hk).
    exists c, k. by rewrite keyOf_token.
Qed.

(** C3 fails on the program: the matches are taken once, from the template
    as given, but each is then looked for in the text as rewritten so far.
    Here [%x%] becomes [%y%], and the replacement meant for the template's
    own [%y%] lands on that value; the template's [%y%] stays.  Nor is a
    value put in as it is: [$$] in it comes out as [$]. *)
Theorem generateTemplate_rewrites_substituted_value :
  generateTemplate (str "%x% and %y%") xy = Normal (str "Y and %y%")
  ∧ generateTemplate (str "%price%") price = Normal (str "$5").
Proof. split; by vm_compute. Qed.

(** C4, as the specification words it, fails: the token [%a%] occurs twice
    in [%a%a%], at 0 and at 2, and the search, which resumes after a
    match, replaces the first only; in [%%a% %a%] its first occurrence is
    part of the token [%%a%] and goes with it. *)
Lemma generateTemplate_overlapping_occurrences :
  occurrences (str "%a%a%") (str "%a%") = [0; 2]
  ∧ generateTemplate (str "%a%a%") aX = Normal (str "Xa%")
  ∧ occurrences (str "%%a% %a%") (str "%a%") = [1; 5]
  ∧ generateTemplate (str "%%a% %a%") aX = Normal (str " X").
Proof. split_and!; by vm_compute. Qed.

(** C4, amended: when the value put in for each matched token holds
    neither the marker nor a dollar sign, and no matched key the data lack
    is a name every object inherits, every occurrence of a token that the
    left-to-right, non-overlapping search finds is replaced, each
    occurrence of the same token by the same string: cut the template into
    the tokens found and the characters between them; the output is the
    pieces in order, each token's piece being the replacement of that
    token and each other piece the character itself. *)
Theorem generateTemplate_replaces_every_match T data :
  tame T data →
  ∃ outs,
    generateTemplate T data = Normal (concat outs)
    ∧ concat (map raw (segments T)) = T
    ∧ tokensOf (segments T) = matchAll T
    ∧ length outs = length (segments T)
    ∧ (∀ i t, segments T !! i = Some (Token t) → outs !! i = Some (replacement data t))
    ∧ (∀ i c, segments T !! i = Some (Verbatim c) → outs !! i = Some [c]).
Proof.
  intros Htame. exists (map (substituted data) (segments T)). split_and!.
  - by apply generateTemplate_render.
  - apply raw_segments.
  - apply tokensOf_segments.
  - by rewrite length_map.
  - intros i t Hi. by rewrite list_lookup_fmap, Hi.
  - intros i c Hi. by rewrite list_lookup_fmap, Hi.
Qed.

Lemma generateTemplate_replaces_every_match_numbers :
  tame (str "%a% %b% %a%") numbers
  ∧ ∃ outs,
      generateTemplate (str "%a% %b% %a%") numbers = Normal (concat outs)
      ∧ concat (map raw (segments (str "%a% %b% %a%"))) = str "%a% %b% %a%"
      ∧ tokensOf (segments (str "%a% %b% %a%")) = matchAll (str "%a% %b% %a%")
      ∧ length outs = length (segments (str "%a% %b% %a%"))
      ∧ (∀ i t, segments (str "%a% %b% %a%") !! i = Some (Token t) →
                outs !! i = Some (replacement numbers t))
      ∧ (∀ i c, segments (str "%a% %b% %a%") !! i = Some (Verbatim c) →
                outs !! i = Some [c]).
Proof.
  assert (tame (str "%a% %b% %a%") numbers) as Htame.
  { unfold tame. apply (bool_decide_unpack _). vm_compute. exact I. }
  split; [exact Htame|].
  exact (generateTemplate_replaces_every_match (str "%a% %b% %a%") numbers Htame).
Defined.

(** C5, as the specification words it, fails: with [a] set to [%%%] the
    output of [%a%] is [%%%], which holds no token of the specification's
    pattern (the key would be the marker); the program matches it as a
    token with key [%] and, rendering it again, returns the empty string. *)
Lemma generateTemplate_marker_key_rendered_again :
  generateTemplate (str "%a%") markers = Normal (str "%%%")
  ∧ specTokens (str "%%%") = []
  ∧ generateTemplate (str "%%%") markers = Normal []
  ∧ generateTemplate (str "%%%") markers ≠ generateTemplate (str "%a%") markers.
Proof. split_and!; [by vm_compute..|]. vm_compute. discriminate. Qed.

(** C5, amended: when the output of [generateTemplate T D] holds no token
    of the program's pattern (the marker, one character that is neither
    whitespace nor a period, then characters that are neither whitespace,
    period nor marker, the marker), rendering it again with the same data
    returns it unchanged. *)
Theorem generateTemplate_idempotent T data R :
  generateTemplate T data = Normal R →
  tokenFree R →
  generateTemplate R data = Normal R.
Proof.
  intros _ Hfree. unfold generateTemplate.
  by rewrite (tokenFree_matchAll R Hfree).
Qed.

Lemma generateTemplate_idempotent_hello :
  generateTemplate hello dasha = Normal (str "<p>Hello Dasha!</p>")
  ∧ tokenFree (str "<p>Hello Dasha!</p>")
  ∧ generateTemplate (str "<p>Hello Dasha!</p>") dasha = Normal (str "<p>Hello Dasha!</p>").
Proof.
  assert (generateTemplate hello dasha = Normal (str "<p>Hello Dasha!</p>")) as Hrun
    by (vm_compute; reflexivity).
  assert (tokenFree (str "<p>Hello Dasha!</p>")) as Hfree
    by (apply matchAll_tokenFree; vm_compute; reflexivity).
  split_and!; [exact Hrun|exact Hfree|].
  exact (generateTemplate_idempotent hello dasha _ Hrun Hfree).
Defined.

End Engine.

(** ** The input session *)

Module Session.
Import Demo.

(** The example in the documentation of [getFileNameFromPath]. *)
Example getFileNameFromPath_example :
  getFileNameFromPath machine (str "/hello/world/test.json") = str "test.json".
Proof. by vm_compute. Qed.

(** A round that succeeds: the template is read, then the data; the result
    is written and the next round begins. *)
Example session_round :
  resume served AwaitTemplatePath (str "/home/d/template.html ")
  = {| events := [Question (newline :: str "Enter data file location: ")];
       suspended := [AwaitDataPath hello (str "/home/d/template.html")] |}
  ∧ resume served (AwaitDataPath hello (str "/home/d/template.html"))
      (str "/home/d/data.json")
    = {| events := [WriteFile (str "/opt/templatr/bin/../results/template.html")
                      (str "<p>Hello Dasha!</p>");
                    Log (str "New file is served on https://localhost:3000/template.html");
                    Question (newline :: str "Enter template file location: ")];
         suspended := [AwaitTemplatePath] |}.
Proof. split; by vm_compute. Qed.

Lemma includes_html_nonempty loc :
  includes loc (str ".html") = true → falsy loc = false.
Proof. by destruct loc. Qed.

Lemma run_with_state template loc :
  includes loc (str ".html") = true →
  run (Some (template, loc))
  = askQuestion (str "Enter data file location: ") (AwaitDataPath template loc).
Proof.
  intros H. unfold run. by rewrite (includes_html_nonempty _ H), andb_false_r.
Qed.

(** Whenever the session waits for a data path, the template location it
    holds names an html file; in particular it is not empty. *)
Lemma reachable_data_location template loc :
  reachable (AwaitDataPath template loc) → includes loc (str ".html") = true.
Proof.
  intros H. remember (AwaitDataPath template loc) as a eqn:Ea.
  revert template loc Ea.
  induction H as [a Hin|env a answer a' _ IH Hin]; intros template loc ->.
  - by apply list_elem_of_singleton in Hin.
  - destruct a as [|template0 loc0]; unfold resume in Hin.
    + destruct (_ || _) eqn:Hvalid.
      { by apply list_elem_of_singleton in Hin. }
      destruct (readTemplateFile _ _).
      * apply list_elem_of_singleton in Hin. injection Hin as -> ->.
        apply orb_false_iff in Hvalid as [_ Hinc].
        by apply negb_false_iff in Hinc.
      * by apply list_elem_of_singleton in Hin.
    + specialize (IH _ _ eq_refl).
      rewrite (run_with_state _ _ IH) in Hin.
      destruct (_ || _).
      { apply list_elem_of_singleton in Hin. by injection Hin as -> ->. }
      destruct (readDataFile _ _).
      * destruct (generateTemplate _ _); [|by apply elem_of_nil in Hin].
        unfold writeFile in Hin. destruct (writeFileSync _ _ _); simpl in Hin.
        -- by apply list_elem_of_singleton in Hin.
        -- apply elem_of_cons in Hin as [?|Hin]; [done|].
           by apply list_elem_of_singleton in Hin.
      * destruct (decide _); apply list_elem_of_singleton in Hin;
          by injection Hin as -> ->.
Qed.

(** C6: at the data-file step, a path whose file is read but does not
    parse as JSON is answered with the invalid-JSON message, one whose
    file cannot be read with the not-found message, and the two messages
    differ; either way the data question alone is asked again, by a call
    that holds the template text and the template location it held
    before.  (The file is read when the path has passed the check on its
    name; a path that fails the check is answered with the message about
    the type, and the same retry.) *)
Theorem data_step_retries env template templateFileLocation answer :
  reachable (AwaitDataPath template templateFileLocation) →
  let dataFileLocation := trim answer in
  let nameOk :=
    negb (isEmpty dataFileLocation || negb (includes dataFileLocation (str ".json"))) in
  let retry message :=
    {| events := [Log message; Question (newline :: str "Enter data file location: ")];
       suspended := [AwaitDataPath template templateFileLocation] |} in
  (∀ buffer,
     nameOk = true →
     readFileSync env dataFileLocation = Some buffer →
     JSON_parse env (Buffer_toString env buffer) = None →
     resume env (AwaitDataPath template templateFileLocation) answer
     = retry (str "File '" ++ dataFileLocation ++ str "' is invalid JSON!"))
  ∧ (nameOk = true →
     readFileSync env dataFileLocation = None →
     resume env (AwaitDataPath template templateFileLocation) answer
     = retry (str "File '" ++ dataFileLocation ++ str "' not found!"))
  ∧ (nameOk = false →
     resume env (AwaitDataPath template templateFileLocation) answer
     = retry (str "Data file should be of type JSON!"))
  ∧ str "File '" ++ dataFileLocation ++ str "' is invalid JSON!"
    ≠ str "File '" ++ dataFileLocation ++ str "' not found!".
Proof.
  intros Hreach dataFileLocation nameOk retry.
  pose proof (run_with_state template _ (reachable_data_location _ _ Hreach)) as Hrun.
  unfold nameOk. split_and!.
  - intros buffer Hvalid%negb_true_iff Hread Hparse. unfold resume.
    fold dataFileLocation. rewrite Hvalid. unfold readDataFile.
    by rewrite Hread, Hparse, Hrun.
  - intros Hvalid%negb_true_iff Hread. unfold resume.
    fold dataFileLocation. rewrite Hvalid. unfold readDataFile.
    by rewrite Hread, Hrun.
  - intros Hvalid%negb_false_iff. unfold resume.
    fold dataFileLocation. by rewrite Hvalid, Hrun.
  - intros H. do 2 apply app_inv_head in H. discriminate H.
Qed.

Lemma data_step_retries_broken_file :
  resume machine (AwaitDataPath hello (str "/home/d/template.html"))
    (str "/home/d/broken.json")
  = {| events := [Log (str "File '/home/d/broken.json' is invalid JSON!");
                  Question (newline :: str "Enter data file location: ")];
       suspended := [AwaitDataPath hello (str "/home/d/template.html")] |}.
Proof.
  assert (reachable (AwaitDataPath hello (str "/home/d/template.html"))) as Hreach.
  { apply (reachable_resume machine AwaitTemplatePath (str "/home/d/template.html")).
    - apply reachable_start. vm_compute. left.
    - vm_compute. left. }
  destruct (data_step_retries machine hello (str "/home/d/template.html")
              (str "/home/d/broken.json") Hreach) as (Hbad & _ & _ & _).
  exact (Hbad (str "{name:") eq_refl eq_refl eq_refl).
Defined.

(** C7: at the template step, a path that is empty or lacks [.html], and
    a path whose file cannot be read, are answered with a reason, after
    which the session starts over with a call of [run] that holds no
    state: the template question is asked again, and no data question. *)
Theorem template_step_restarts env answer :
  let templateFileLocation := trim answer in
  isEmpty templateFileLocation || negb (includes templateFileLocation (str ".html")) = true
  ∨ readFileSync env templateFileLocation = None →
  ∃ reason,
    (reason = str "Template file should be of type html!"
     ∨ reason = str "File '" ++ templateFileLocation ++ str "' not found!")
    ∧ resume env AwaitTemplatePath answer = andThen (console_log reason) (run None)
    ∧ events (resume env AwaitTemplatePath answer)
      = [Log reason; Question (newline :: str "Enter template file location: ")]
    ∧ suspended (resume env AwaitTemplatePath answer) = [AwaitTemplatePath].
Proof.
  intros templateFileLocation H. unfold resume. fold templateFileLocation.
  destruct (_ || _) eqn:Hvalid.
  - exists (str "Template file should be of type html!"). split_and!; [by left|done..].
  - destruct H as [?|Hread]; [done|]. unfold readTemplateFile. rewrite Hread.
    exists (str "File '" ++ templateFileLocation ++ str "' not found!").
    split_and!; [by right|done..].
Qed.

Lemma template_step_restarts_wrong_type :
  ∃ reason,
    (reason = str "Template file should be of type html!"
     ∨ reason = str "File '" ++ trim (str " notes.txt ") ++ str "' not found!")
    ∧ resume machine AwaitTemplatePath (str " notes.txt ")
      = andThen (console_log reason) (run None)
    ∧ events (resume machine AwaitTemplatePath (str " notes.txt "))
      = [Log reason; Question (newline :: str "Enter template file location: ")]
    ∧ suspended (resume machine AwaitTemplatePath (str " notes.txt ")) = [AwaitTemplatePath].
Proof.
  exact (template_step_restarts machine (str " notes.txt ") (or_introl eq_refl)).
Defined.

(** C10: when the write of the generated file fails, [run] is called as
    the error callback and again at the end of the cycle: two template
    questions are asked and two calls are left waiting on them; when the
    write succeeds there is one. *)
Theorem write_failure_starts_two_cycles env template templateFileLocation answer
    data newContent :
  let dataFileLocation := trim answer in
  let templateFileName := getFileNameFromPath env templateFileLocation in
  let fileLocation := RESULTS_DIRECTORY env ++ str "/" ++ templateFileName in
  let served :=
    Log (str "New file is served on https://localhost:" ++ PORT env ++ str "/"
           ++ templateFileName) in
  let question := Question (newline :: str "Enter template file location: ") in
  isEmpty dataFileLocation || negb (includes dataFileLocation (str ".json")) = false →
  readDataFile env dataFileLocation = Normal data →
  generateTemplate template data = Normal newContent →
  (writeFileSync env fileLocation newContent = false →
   resume env (AwaitDataPath template templateFileLocation) answer
   = {| events := [Log (str "Could not create file!"); question; served; question];
        suspended := [AwaitTemplatePath; AwaitTemplatePath] |})
  ∧ (writeFileSync env fileLocation newContent = true →
     resume env (AwaitDataPath template templateFileLocation) answer
     = {| events := [WriteFile fileLocation newContent; served; question];
          suspended := [AwaitTemplatePath] |}).
Proof.
  intros dataFileLocation templateFileName fileLocation served question
    Hvalid Hdata Hgen.
  split; intros Hwrite; unfold resume; fold dataFileLocation;
    rewrite Hvalid, Hdata, Hgen; unfold writeFile;
    fold templateFileName; fold fileLocation; by rewrite Hwrite.
Qed.

Lemma write_failure_starts_two_cycles_machine :
  resume machine (AwaitDataPath hello (str "/home/d/template.html"))
    (str "/home/d/data.json")
  = {| events := [Log (str "Could not create file!");
                  Question (newline :: str "Enter template file location: ");
                  Log (str "New file is served on https://localhost:3000/template.html");
                  Question (newline :: str "Enter template file location: ")];
       suspended := [AwaitTemplatePath; AwaitTemplatePath] |}.
Proof.
  assert (readDataFile machine (trim (str "/home/d/data.json")) = Normal dasha) as Hdata
    by (vm_compute; reflexivity).
  assert (generateTemplate hello dasha = Normal (str "<p>Hello Dasha!</p>")) as Hgen
    by (vm_compute; reflexivity).
  exact (proj1 (write_failure_starts_two_cycles machine hello (str "/home/d/template.html")
                  (str "/home/d/data.json") dasha (str "<p>Hello Dasha!</p>")
                  eq_refl Hdata Hgen) eq_refl).
Defined.

End Session.

(** ** The static server *)

Module Server.
Import Demo.

(** The index of a results directory that holds nothing but [.gitignore]. *)
Lemma index_of_empty_directory env :
  readdir env (RESULTS_DIRECTORY env) = Some [str ".gitignore"] →
  httpsRequestHandler env (str "/")
  = Responded {| statusCode := 200; contentType := str "text/html";
                 content := Text (str "<html><body>" ++ [newline] ++ str "      "
                                    ++ str "No files found!" ++ [newline]
                                    ++ str "      </body></html>") |}.
Proof.
  intros Hdir. unfold httpsRequestHandler, generateIndex.
  rewrite decide_True by done. by rewrite Hdir.
Qed.

(** C8 fails on the program: when the results directory cannot be listed,
    the callback of [readdir] filters [files], which is undefined, before
    it looks at [err]; the TypeError is thrown outside the promise, which
    is never rejected, and the request gets no response at all. *)
Theorem index_failure_is_uncaught env :
  readdir env (RESULTS_DIRECTORY env) = None →
  httpsRequestHandler env (str "/") = UncaughtException TypeError.
Proof.
  intros Herr. unfold httpsRequestHandler, generateIndex.
  rewrite decide_True by done. by rewrite Herr.
Qed.

Lemma index_failure_is_uncaught_machine :
  httpsRequestHandler machine (str "/") = UncaughtException TypeError.
Proof. exact (index_failure_is_uncaught machine eq_refl). Defined.

(** C9: a request for any path but [/] reads the file the path names
    under the results directory (the path is appended as it came, after a
    separator): when the read succeeds the answer is 200, [text/html] and
    the file's bytes; when it fails, 404, [text/plain] and the
    file-not-found text. *)
Theorem file_request env url :
  url ≠ str "/" →
  httpsRequestHandler env url =
    match readFileSync env (RESULTS_DIRECTORY env ++ str "/" ++ url) with
    | Some buffer =>
        Responded {| statusCode := 200; contentType := str "text/html";
                     content := Bytes buffer |}
    | None =>
        Responded {| statusCode := 404; contentType := str "text/plain";
                     content := Text (str "File not found!") |}
    end.
Proof.
  intros Hurl. unfold httpsRequestHandler. by rewrite decide_False by done.
Qed.

Lemma file_request_served :
  httpsRequestHandler served (str "/template.html")
  = Responded {| statusCode := 200; contentType := str "text/html";
                 content := Bytes (str "<p>Hello Dasha!</p>") |}
  ∧ httpsRequestHandler served (str "/missing.html")
    = Responded {| statusCode := 404; contentType := str "text/plain";
                   content := Text (str "File not found!") |}.
Proof.
  split.
  - exact (file_request served (str "/template.html") ltac:(discriminate)).
  - exact (file_request served (str "/missing.html") ltac:(discriminate)).
Defined.

End Server.

(** ** More about the template engine *)

Module EngineProperties.
Import Demo JSFacts EngineFacts.

Lemma matchAll_without_marker T : percent ∉ T → matchAll T = [].
Proof.
  induction T as [|c T IH]; intros H; [done|].
  rewrite matchAll_other.
  - apply IH. intros ?. apply H. by right.
  - apply regex_exec_head. intros ->. apply H. left.
Qed.

(** A template that holds no marker is returned as it is, whatever the
    data: nothing is looked up and nothing can throw. *)
Theorem generateTemplate_without_marker T data :
  percent ∉ T → generateTemplate T data = Normal T.
Proof.
  intros H. unfold generateTemplate. by rewrite matchAll_without_marker.
Qed.

Lemma generateTemplate_without_marker_plain :
  generateTemplate (str "<p>plain</p>") ab = Normal (str "<p>plain</p>").
Proof.
  apply generateTemplate_without_marker.
  apply (bool_decide_unpack _). vm_compute. exact I.
Defined.

Lemma lazyRest_bad k r :
  percent ∉ k → Exists (fun x => keyChar x = false) k → lazyRest (k ++ r) = None.
Proof.
  induction k as [|c k IH]; intros Hp Hbad; [by apply Exists_nil in Hbad|].
  simpl app. rewrite lazyRest_unfold.
  assert ((c =? percent)%N = false) as ->.
  { apply N.eqb_neq. intros ->. apply Hp. left. }
  destruct (keyChar c) eqn:K; [|done].
  apply Exists_cons in Hbad as [Hc|Hbad]; [congruence|].
  rewrite IH; [done| |done]. intros ?. apply Hp. by right.
Qed.

Lemma matchAll_tail_marker k : percent ∉ k → matchAll (k ++ [percent]) = [].
Proof.
  induction k as [|c k IH]; intros Hp; [done|].
  simpl app. rewrite matchAll_other.
  - apply IH. intros ?. apply Hp. by right.
  - apply regex_exec_head. intros ->. apply Hp. left.
Qed.

(** A pair of markers around an empty key, or around a key that holds
    whitespace or a period, is no token: standing alone it is returned as
    it is, whatever the data hold under that key. *)
Theorem generateTemplate_malformed_key k data :
  percent ∉ k →
  k = [] ∨ Exists (fun x => isWhiteSpace x = true ∨ x = period) k →
  generateTemplate (percent :: k ++ [percent]) data = Normal (percent :: k ++ [percent]).
Proof.
  intros Hp Hbad. unfold generateTemplate.
  assert (matchAll (percent :: k ++ [percent]) = []) as ->; [|done].
  rewrite matchAll_other; [by apply matchAll_tail_marker|].
  destruct Hbad as [->|Hbad]; [done|].
  destruct k as [|c k]; [by apply Exists_nil in Hbad|].
  simpl app. rewrite regex_exec_cons2.
  destruct (keyChar c) eqn:K; [|by rewrite andb_false_r].
  rewrite lazyRest_bad; [by destruct (_ && _)| |].
  - intros ?. apply Hp. by right.
  - apply Exists_cons in Hbad as [Hc|Hbad].
    + apply keyChar_true in K as [Hw Hd]. destruct Hc; congruence.
    + eapply Exists_impl; [exact Hbad|]. intros x Hx.
      destruct (keyChar x) eqn:Kx; [|done].
      apply keyChar_true in Kx as [Hw Hd]. destruct Hx; congruence.
Qed.

Lemma generateTemplate_malformed_key_dotted :
  generateTemplate (percent :: str "user.name" ++ [percent])
    {[ str "user.name" := JString (str "Dasha") ]}
  = Normal (percent :: str "user.name" ++ [percent]).
Proof.
  apply generateTemplate_malformed_key.
  - apply (bool_decide_unpack _). vm_compute. exact I.
  - right. apply (bool_decide_unpack _). vm_compute. exact I.
Defined.

(** With no data at all, every token is taken out and the rest is kept,
    provided no key is a name that every object inherits (for such a key
    the lookup finds the inherited member, not [undefined]). *)
Theorem generateTemplate_empty_data T :
  Forall (fun t => assoc (keyOf t) ObjectPrototype = VUndefined) (matchAll T) →
  generateTemplate T ∅ = Normal (concat (map verbatimOnly (segments T))).
Proof.
  intros Hkeys.
  assert (∀ t, replacement ∅ t = []) as Hrep.
  { intros t. unfold replacement. by rewrite lookup_empty. }
  rewrite generateTemplate_render.
  - unfold render. rewrite (map_ext (substituted ∅) verbatimOnly); [done|].
    intros [c|t]; [done|apply Hrep].
  - unfold tame. eapply Forall_impl; [exact Hkeys|].
    intros t Ht. rewrite Hrep. split_and!; [by intros ?%elem_of_nil..|done].
Qed.

Lemma generateTemplate_empty_data_hello :
  generateTemplate hello ∅ = Normal (concat (map verbatimOnly (segments hello))).
Proof.
  apply generateTemplate_empty_data.
  apply (bool_decide_unpack _). vm_compute. exact I.
Defined.

Lemma indexOf_occurrence before m after : is_Some (indexOf (before ++ m ++ after) m).
Proof.
  induction before as [|c before IH]; rewrite indexOf_unfold.
  - simpl. by rewrite startsWith_app.
  - destruct (startsWith _ m); [done|]. simpl.
    destruct IH as [pos ->]. done.
Qed.

Lemma first_match_occurs T m rest :
  matchAll T = m :: rest → ∃ before after, T = before ++ m ++ after.
Proof.
  induction T as [|m' r E IH|c s E IH] using scan_ind.
  - done.
  - rewrite (matchAll_token _ _ E). intros [= <- _]. by exists [], r.
  - rewrite (matchAll_other _ _ E). intros H.
    destruct (IH H) as (before & after & ->). by exists (c :: before), after.
Qed.

(** When the first token of a template has a key the data lack and that
    key is one of the inherited names [hasOwnProperty], [valueOf], ...,
    the program does not put in the empty string: the lookup finds the
    inherited function, [replace] calls it, and [generateTemplate] throws
    a TypeError. *)
Theorem generateTemplate_inherited_key_throws T data m rest :
  matchAll T = m :: rest →
  data !! keyOf m = None →
  keyOf m ∈ throwingNames →
  generateTemplate T data = Throw TypeError.
Proof.
  intros Hmatch Hdata Hkey. unfold generateTemplate. rewrite Hmatch.
  destruct (first_match_occurs _ _ _ Hmatch) as (before & after & ->).
  simpl. fold (keyOf m). unfold Get. rewrite Hdata.
  unfold replace. destruct (indexOf_occurrence before m after) as [pos ->].
  unfold throwingNames in Hkey.
  repeat (apply elem_of_cons in Hkey as [->|Hkey]; [done|]).
  by apply elem_of_nil in Hkey.
Qed.

Lemma generateTemplate_inherited_key_throws_valueOf :
  generateTemplate (str "<b>%valueOf%</b> %name%") dasha = Throw TypeError.
Proof.
  apply (generateTemplate_inherited_key_throws _ dasha (str "%valueOf%") [str "%name%"]).
  - vm_compute. reflexivity.
  - vm_compute. reflexivity.
  - apply (bool_decide_unpack _). vm_compute. exact I.
Defined.

Lemma generateTemplate_loop_ext matches T data1 data2 :
  Forall (fun m => data1 !! keyOf m = data2 !! keyOf m) matches →
  generateTemplate_loop matches T data1 = generateTemplate_loop matches T data2.
Proof.
  intros H. revert T. induction H as [|m matches Hm _ IH]; intros T; [done|].
  simpl. fold (keyOf m). unfold Get. rewrite Hm.
  destruct (replace T m _); [apply IH|done].
Qed.

(** Only the members named by the template's tokens matter: setting or
    removing a member no token names leaves the output, or the exception,
    as it was. *)
Theorem generateTemplate_unused_member T data key value :
  Forall (fun m => keyOf m ≠ key) (matchAll T) →
  generateTemplate T (<[key:=value]> data) = generateTemplate T data
  ∧ generateTemplate T (delete key data) = generateTemplate T data.
Proof.
  intros H. unfold generateTemplate.
  split; apply generateTemplate_loop_ext; (eapply Forall_impl; [exact H|]);
    intros m Hm; simpl.
  - by rewrite lookup_insert_ne.
  - by rewrite lookup_delete_ne.
Qed.

Lemma generateTemplate_unused_member_hello :
  generateTemplate hello (<[str "age":=JNumber (str "30")]> dasha)
  = generateTemplate hello dasha
  ∧ generateTemplate hello (delete (str "age") dasha) = generateTemplate hello dasha.
Proof.
  apply generateTemplate_unused_member.
  apply (bool_decide_unpack _). vm_compute. exact I.
Defined.

Lemma token_at_least_three t : isToken t → 3 ≤ length t.
Proof. intros (c & k & -> & _). simpl. rewrite length_app. simpl. lia. Qed.

(** The matches do not overlap: each is at least three code units long
    and together they are no longer than the template, so a template of
    [n] code units has at most [n / 3] tokens. *)
Theorem matchAll_lengths T :
  Forall (fun m => 3 ≤ length m) (matchAll T)
  ∧ sum_list (length <$> matchAll T) ≤ length T
  ∧ 3 * length (matchAll T) ≤ length T.
Proof.
  induction T as [|m r E (IH1 & IH2 & IH3)|c s E (IH1 & IH2 & IH3)] using scan_ind.
  - split_and!; [constructor|done..].
  - rewrite (matchAll_token _ _ E).
    destruct (regex_exec_Some _ _ E) as [Ht%token_at_least_three _].
    rewrite length_app, fmap_cons.
    change (sum_list (length m :: (length <$> matchAll r)))
      with (length m + sum_list (length <$> matchAll r)).
    change (length (m :: matchAll r)) with (S (length (matchAll r))).
    split_and!; [by constructor|lia..].
  - rewrite (matchAll_other _ _ E).
    change (length (c :: s)) with (S (length s)).
    split_and!; [done|lia..].
Qed.





End EngineProperties.

(** ** More about the input session *)

Module SessionProperties.
Import Demo Session.

Lemma split_nonempty s sep : split s sep ≠ [].
Proof.
  destruct s as [|c s]; [done|]. simpl.
  destruct (c =? sep)%N; [done|]. by destruct (split s sep).
Qed.

Lemma split_no_separator s sep : sep ∉ s → split s sep = [s].
Proof.
  induction s as [|c s IH]; intros H; [done|]. simpl.
  assert ((c =? sep)%N = false) as ->.
  { apply N.eqb_neq. intros ->. apply H. left. }
  rewrite IH; [done|]. intros ?. apply H. by right.
Qed.

Lemma split_at_separator dir rest sep :
  split (dir ++ sep :: rest) sep = split dir sep ++ split rest sep.
Proof.
  induction dir as [|c dir IH]; simpl.
  - by rewrite N.eqb_refl.
  - destruct (c =? sep)%N; [by rewrite IH|].
    rewrite IH. destruct (split dir sep) eqn:E; [|done].
    by destruct (split_nonempty dir sep).
Qed.

Lemma last_separator s (sep : N) :
  sep ∉ s ∨ ∃ dir name, s = dir ++ sep :: name ∧ sep ∉ name.
Proof.
  induction s as [|c s [IH|(dir & name & -> & Hname)]].
  - left. by intros ?%elem_of_nil.
  - destruct (decide (c = sep)) as [->|Hne].
    + right. by exists [], s.
    + left. by intros [?|?]%elem_of_cons.
  - right. by exists (c :: dir), name.
Qed.

Lemma getFileNameFromPath_joined env dir name :
  separator env ∉ name →
  getFileNameFromPath env (dir ++ separator env :: name) = name.
Proof.
  intros H. unfold getFileNameFromPath. fold (separator env).
  by rewrite split_at_separator, (split_no_separator name), last_snoc.
Qed.

Lemma getFileNameFromPath_bare env name :
  separator env ∉ name → getFileNameFromPath env name = name.
Proof.
  intros H. unfold getFileNameFromPath. fold (separator env).
  by rewrite (split_no_separator name).
Qed.

(** [getFileNameFromPath] returns what follows the last separator of the
    path (the whole path when it has none): the result holds no
    separator, the path is the result after a prefix that is empty or
    ends in a separator, and the name of a name is the name.  A path
    that ends in a separator has the empty name.  On Windows only the
    backslash separates, elsewhere only the slash. *)
Theorem getFileNameFromPath_last_segment env path :
  let name := getFileNameFromPath env path in
  (separator env ∉ name)
  ∧ (∃ prefix, path = prefix ++ name
               ∧ (prefix = [] ∨ ∃ dir, prefix = dir ++ [separator env]))
  ∧ getFileNameFromPath env name = name
  ∧ (∀ dir file, separator env ∉ file →
       getFileNameFromPath env (dir ++ separator env :: file) = file)
  ∧ (∀ dir, getFileNameFromPath env (dir ++ [separator env]) = []).
Proof.
  intros name. unfold name.
  assert (∀ dir file, separator env ∉ file →
            getFileNameFromPath env (dir ++ separator env :: file) = file) as Hjoin
    by (intros; by apply getFileNameFromPath_joined).
  destruct (last_separator path (separator env)) as [H|(dir & file & -> & H)].
  - rewrite !getFileNameFromPath_bare by done.
    split_and!; [done|by exists []; split; [|left]|done|done|].
    intros dir. apply Hjoin. by intros ?%elem_of_nil.
  - rewrite Hjoin by done. rewrite getFileNameFromPath_bare by done.
    split_and!; [done| |done|done|].
    + exists (dir ++ [separator env]). split; [by rewrite <- app_assoc|].
      right. by exists dir.
    + intros dir'. apply Hjoin. by intros ?%elem_of_nil.
Qed.

(** *** Answers are trimmed *)

Lemma trimStart_whitespace lead s :
  Forall (fun c => isWhiteSpace c = true) lead → trimStart (lead ++ s) = trimStart s.
Proof. induction 1 as [|c lead Hc _ IH]; [done|]. simpl. by rewrite Hc. Qed.

Lemma trimStart_all_whitespace s :
  Forall (fun c => isWhiteSpace c = true) s → trimStart s = [].
Proof.
  intros H. rewrite <- (app_nil_r s). by rewrite trimStart_whitespace.
Qed.

Lemma trimStart_app s t :
  trimStart s ≠ [] → trimStart (s ++ t) = trimStart s ++ t.
Proof.
  induction s as [|c s IH]; [done|]. simpl.
  destruct (isWhiteSpace c); [apply IH|done].
Qed.

Lemma trimStart_nil_app s t : trimStart s = [] → trimStart (s ++ t) = trimStart t.
Proof.
  induction s as [|c s IH]; [done|]. simpl.
  destruct (isWhiteSpace c); [apply IH|done].
Qed.

Lemma trim_surrounded lead s trail :
  Forall (fun c => isWhiteSpace c = true) lead →
  Forall (fun c => isWhiteSpace c = true) trail →
  trim (lead ++ s ++ trail) = trim s.
Proof.
  intros Hlead Htrail. unfold trim. rewrite trimStart_whitespace by done.
  f_equal. destruct (trimStart s) eqn:E.
  - rewrite trimStart_nil_app by done.
    by rewrite (trimStart_all_whitespace trail).
  - rewrite trimStart_app by by rewrite E.
    rewrite E, reverse_app. apply trimStart_whitespace.
    by apply Forall_reverse.
Qed.

(** Whitespace around an answer does not count: the session goes on the
    same way with or without it. *)
Theorem resume_ignores_surrounding_whitespace env a lead answer trail :
  Forall (fun c => isWhiteSpace c = true) lead →
  Forall (fun c => isWhiteSpace c = true) trail →
  resume env a (lead ++ answer ++ trail) = resume env a answer.
Proof.
  intros Hlead Htrail. destruct a; unfold resume; by rewrite trim_surrounded.
Qed.

Lemma resume_ignores_surrounding_whitespace_tab :
  resume machine AwaitTemplatePath
    ([9%N; 32%N] ++ str "/home/d/template.html" ++ [32%N; 13%N; 10%N])
  = resume machine AwaitTemplatePath (str "/home/d/template.html").
Proof.
  apply resume_ignores_surrounding_whitespace;
    apply (bool_decide_unpack _); vm_compute; exact I.
Defined.

(** *** What the session holds, asks, writes, and when it stops *)



(** Every question asked leaves one call waiting on it, and every call
    left waiting was asked its question: after any step the queries put
    to [rl] are, in order, those the suspended calls wait on; there are
    at most two of them. *)
Theorem questions_match_suspended_calls env a answer :
  asked (events (resume env a answer)) = awaits <$> suspended (resume env a answer)
  ∧ length (suspended (resume env a answer)) ≤ 2.
Proof.
  destruct a as [|template loc]; unfold resume, run, readTemplateFile, readDataFile,
    writeFile; repeat case_match; simpl; split; (done || lia).
Qed.


(** A step writes at most one file, and only after the data step: the
    content is what [generateTemplate] returned for the template held and
    the data read, and the location is the results directory, a
    separator, and the file name of the template location, which holds no
    separator of the platform. *)
Theorem written_file_is_generated env a answer fileLocation content :
  (fileLocation, content) ∈ written (events (resume env a answer)) →
  ∃ template loc data,
    a = AwaitDataPath template loc
    ∧ readDataFile env (trim answer) = Normal data
    ∧ generateTemplate template data = Normal content
    ∧ fileLocation = RESULTS_DIRECTORY env ++ str "/" ++ getFileNameFromPath env loc
    ∧ (separator env ∉ getFileNameFromPath env loc)
    ∧ written (events (resume env a answer)) = [(fileLocation, content)].
Proof.
  intros Hin.
  assert (∀ loc, separator env ∉ getFileNameFromPath env loc) as Hname
    by (intros loc; apply (getFileNameFromPath_last_segment env loc)).
  destruct a as [|template loc]; unfold resume, run, readTemplateFile, writeFile in *;
    repeat case_match; simpl in *;
    try (by apply elem_of_nil in Hin).
  apply list_elem_of_singleton in Hin. injection Hin as -> ->.
  exists template, loc. eauto 10.
Qed.

Lemma written_file_is_generated_served :
  ∃ template loc data,
    AwaitDataPath hello (str "/home/d/template.html") = AwaitDataPath template loc
    ∧ readDataFile served (trim (str "/home/d/data.json")) = Normal data
    ∧ generateTemplate template data = Normal (str "<p>Hello Dasha!</p>")
    ∧ str "/opt/templatr/bin/../results/template.html"
      = RESULTS_DIRECTORY served ++ str "/" ++ getFileNameFromPath served loc
    ∧ (separator served ∉ getFileNameFromPath served loc)
    ∧ written (events (resume served (AwaitDataPath hello (str "/home/d/template.html"))
                         (str "/home/d/data.json")))
      = [(str "/opt/templatr/bin/../results/template.html", str "<p>Hello Dasha!</p>")].
Proof.
  apply (written_file_is_generated served (AwaitDataPath hello (str "/home/d/template.html"))
           (str "/home/d/data.json")).
  vm_compute. left.
Defined.

(** A whole round on plain values: when the template path and the data
    path pass their checks, both files are read, the data parse, the
    values to put in hold neither marker nor dollar sign, and the write
    succeeds, the file written is the template's text with each token
    replaced by its value, under the template's own file name in the
    results directory; its address is reported and the next round begins
    with the template question. *)
Theorem round_writes_substitution env answer1 answer2 buffer1 buffer2 data :
  let templateFileLocation := trim answer1 in
  let dataFileLocation := trim answer2 in
  let template := Buffer_toString env buffer1 in
  let templateFileName := getFileNameFromPath env templateFileLocation in
  let fileLocation := RESULTS_DIRECTORY env ++ str "/" ++ templateFileName in
  isEmpty templateFileLocation || negb (includes templateFileLocation (str ".html")) = false →
  readFileSync env templateFileLocation = Some buffer1 →
  isEmpty dataFileLocation || negb (includes dataFileLocation (str ".json")) = false →
  readFileSync env dataFileLocation = Some buffer2 →
  JSON_parse env (Buffer_toString env buffer2) = Some data →
  tame template data →
  writeFileSync env fileLocation (render data template) = true →
  resume env AwaitTemplatePath answer1
  = {| events := [Question (newline :: str "Enter data file location: ")];
       suspended := [AwaitDataPath template templateFileLocation] |}
  ∧ resume env (AwaitDataPath template templateFileLocation) answer2
    = {| events := [WriteFile fileLocation (render data template);
                    Log (str "New file is served on https://localhost:" ++ PORT env
                           ++ str "/" ++ templateFileName);
                    Question (newline :: str "Enter template file location: ")];
         suspended := [AwaitTemplatePath] |}.
Proof.
  intros templateFileLocation dataFileLocation template templateFileName fileLocation
    Hvalid1 Hread1 Hvalid2 Hread2 Hparse Htame Hwrite.
  split.
  - unfold resume, readTemplateFile. fold templateFileLocation.
    by rewrite Hvalid1, Hread1.
  - unfold resume, readDataFile. fold dataFileLocation.
    rewrite Hvalid2, Hread2, Hparse.
    rewrite (EngineFacts.generateTemplate_render _ _ Htame).
    unfold writeFile. fold templateFileName. fold fileLocation.
    by rewrite Hwrite.
Qed.

Lemma round_writes_substitution_served :
  resume served AwaitTemplatePath (str " /home/d/template.html")
  = {| events := [Question (newline :: str "Enter data file location: ")];
       suspended := [AwaitDataPath hello (str "/home/d/template.html")] |}
  ∧ resume served (AwaitDataPath hello (str "/home/d/template.html"))
      (str "/home/d/data.json ")
    = {| events := [WriteFile (str "/opt/templatr/bin/../results/template.html")
                      (render dasha hello);
                    Log (str "New file is served on https://localhost:3000/template.html");
                    Question (newline :: str "Enter template file location: ")];
         suspended := [AwaitTemplatePath] |}.
Proof.
  assert (tame hello dasha) as Htame.
  { unfold tame. apply (bool_decide_unpack _). vm_compute. exact I. }
  exact (round_writes_substitution served (str " /home/d/template.html")
           (str "/home/d/data.json ") hello dashaJson dasha
           eq_refl eq_refl eq_refl eq_refl eq_refl Htame eq_refl).
Defined.

End SessionProperties.

(** ** More about the static server *)

Module ServerProperties.
Import Demo.

(** The answer to a request is 200 with [text/html], or it is 404 with
    [text/plain] and the file-not-found text, and then the request was not
    for [/] and the file could not be read: a request for [/] is never
    answered 404, the text [Could not generate index] is never sent. *)
Theorem responses env url res :
  httpsRequestHandler env url = Responded res →
  (statusCode res = 200 ∧ contentType res = str "text/html")
  ∨ (url ≠ str "/"
     ∧ readFileSync env (RESULTS_DIRECTORY env ++ str "/" ++ url) = None
     ∧ res = {| statusCode := 404; contentType := str "text/plain";
                content := Text (str "File not found!") |}).
Proof.
  unfold httpsRequestHandler, generateIndex.
  destruct (decide (url = str "/")) as [->|Hurl].
  - destruct (readdir env _); [|done]. intros [= <-]. by left.
  - destruct (readFileSync env _) eqn:Hread; intros [= <-]; [by left|by right].
Qed.

Lemma responses_served_index :
  (statusCode (serveHtml (Text (page (anchor served (str "template.html"))))) = 200
   ∧ contentType (serveHtml (Text (page (anchor served (str "template.html")))))
     = str "text/html")
  ∨ (str "/" ≠ str "/"
     ∧ readFileSync served (RESULTS_DIRECTORY served ++ str "/" ++ str "/") = None
     ∧ serveHtml (Text (page (anchor served (str "template.html"))))
       = {| statusCode := 404; contentType := str "text/plain";
            content := Text (str "File not found!") |}).
Proof.
  apply (responses served (str "/")). vm_compute. reflexivity.
Defined.

Lemma concat_anchor_elem env file files :
  file ∈ files →
  ∃ before after, concat (map (anchor env) files) = before ++ anchor env file ++ after.
Proof.
  intros (l1 & l2 & ->)%list_elem_of_split.
  exists (concat (map (anchor env) l1)), (concat (map (anchor env) l2)).
  by rewrite map_app, concat_app.
Qed.

(** The index of a results directory that can be listed: when it holds
    nothing, or nothing but entries named [.gitignore], the page says
    that no files were found; otherwise the page is made of one link for
    each entry that is not named [.gitignore], in the order of the
    listing, so every such entry is linked. *)
Theorem index_of_directory env files :
  readdir env (RESULTS_DIRECTORY env) = Some files →
  let listed := filter (fun file => file ≠ gitignore) files in
  (Forall (fun file => file = gitignore) files →
   httpsRequestHandler env (str "/")
   = Responded (serveHtml (Text (page (str "No files found!")))))
  ∧ (listed ≠ [] →
     httpsRequestHandler env (str "/")
     = Responded (serveHtml (Text (page (concat (map (anchor env) listed))))))
  ∧ (∀ file, file ∈ files → file ≠ gitignore →
       ∃ before after,
         httpsRequestHandler env (str "/")
         = Responded (serveHtml (Text (page (before ++ anchor env file ++ after))))).
Proof.
  intros Hdir listed.
  assert (httpsRequestHandler env (str "/")
          = Responded (serveHtml (Text (page
              (if decide (length listed = 0) then str "No files found!"
               else concat (map (anchor env) listed)))))) as ->.
  { unfold httpsRequestHandler, generateIndex.
    rewrite decide_True by done. by rewrite Hdir. }
  split_and!.
  - intros Hall. rewrite decide_True; [done|].
    unfold listed. clear Hdir. induction Hall as [|file files -> _ IH]; [done|].
    rewrite filter_cons_False by (intros H; by apply H). apply IH.
  - intros Hne. rewrite decide_False; [done|]. by destruct listed.
  - intros file Hin Hfile.
    assert (file ∈ listed) as Hlisted by by apply list_elem_of_filter.
    rewrite decide_False by (by destruct Hlisted).
    destruct (concat_anchor_elem env _ _ Hlisted) as (before & after & ->).
    by exists before, after.
Qed.

Lemma index_of_directory_served :
  httpsRequestHandler served (str "/")
  = Responded (serveHtml (Text (page (anchor served (str "template.html"))))).
Proof.
  destruct (index_of_directory served [str ".gitignore"; str "template.html"] eq_refl)
    as (_ & Hlisted & _).
  rewrite Hlisted; [|vm_compute; discriminate].
  vm_compute. reflexivity.
Defined.

End ServerProperties.
